(** * DirPatchkit: a shallow embedding of [patch_create.py], [patch_apply.py]
    and [xdeltawrapper.py].

    The byte-level primitives [bsdiff4.diff], [bsdiff4.patch] and the xdelta3
    subprocess are opaque collaborators: they are section variables of the
    builder and of the applier.  Everything else (tree diffing, strategy
    dispatch, entry naming, archive writing, validation and application) is
    translated from the Python sources. *)

From Stdlib Require Import String Ascii List ZArith Bool Lia QArith Lqa.
Import ListNotations.
Close Scope Q_scope.
Open Scope string_scope.
Set Warnings "-register-all".

(* ------------------------------------------------------------------ *)
(** ** Python values *)

Definition bytes := list Byte.byte.

(** A zip archive as [zipfile] sees it: entries in write order. *)
Definition archive := list (string * bytes).

(** [ZipFile.namelist()] *)
Definition namelist (a : archive) : list string := map fst a.

(** [ZipFile.read(name)]: the last entry written under [name] wins. *)
Definition zip_read (a : archive) (name : string) : bytes :=
  match find (fun e => String.eqb (fst e) name) (rev a) with
  | Some (_, d) => d
  | None => []
  end.

(** [s.endswith(suf)] *)
Fixpoint ends_with (suf s : string) : bool :=
  String.eqb s suf ||
  match s with
  | EmptyString => false
  | String _ r => ends_with suf r
  end.

(** [s.replace(old, new)] for a non-empty [old]: a left-to-right scan that
    replaces non-overlapping occurrences; [skip] counts the characters of a
    replaced occurrence still to be dropped. *)
Fixpoint repl (old new s : string) (skip : nat) : string :=
  match s with
  | EmptyString => EmptyString
  | String c r =>
      match skip with
      | S k => repl old new r k
      | O => if String.prefix old s
             then new ++ repl old new r (String.length old - 1)
             else String c (repl old new r 0)
      end
  end.

Definition py_replace (old new s : string) : string := repl old new s 0.

(** [str(n)] for a natural number. *)
Fixpoint str_nat_aux (fuel n : nat) (acc : string) : string :=
  match fuel with
  | O => acc
  | S f =>
      let acc' := String (ascii_of_nat (48 + n mod 10)) acc in
      match n / 10 with
      | O => acc'
      | m => str_nat_aux f m acc'
      end
  end.

Definition str_nat (n : nat) : string := str_nat_aux (S n) n "".

(* ------------------------------------------------------------------ *)
(** ** Paths ([os.path]) *)

(** Split on ['/']. *)
Fixpoint split_slash (s : string) : list string :=
  match s with
  | EmptyString => [""]
  | String c r =>
      let segs := split_slash r in
      if Ascii.eqb c "/" then "" :: segs
      else match segs with
           | [] => [String c ""]
           | x :: xs => String c x :: xs
           end
  end.

(** [os.path.join(d, p)] for a relative [p]. *)
Definition join (d p : string) : string :=
  if String.eqb d "" then p else d ++ "/" ++ p.

(** [os.path.normpath] for paths relative to the working directory that
    contain no [..]: empty and [.] components are dropped.  The file system
    below is keyed by normalised paths, as the OS resolves them. *)
Definition path_segs (p : string) : list string :=
  filter (fun seg => negb (String.eqb seg "") && negb (String.eqb seg "."))
         (split_slash p).

Definition norm (p : string) : string := String.concat "/" (path_segs p).

(** [os.path.relpath(p)] (relative to the working directory) for such paths. *)
Definition relpath (p : string) : string := norm p.


(** [os.path.dirname(p)] *)
Definition dirname (p : string) : string :=
  String.concat "/" (removelast (split_slash p)).

(** The directories [os.makedirs] creates for a normalised path, outermost
    first. *)
Fixpoint ancestors (acc : string) (segs : list string) : list string :=
  match segs with
  | [] => []
  | s :: r => let q := join acc s in q :: ancestors q r
  end.

(* ------------------------------------------------------------------ *)
(** ** A state and exception monad

    A raised exception keeps the state reached so far: Python does not roll
    back writes already made. *)

Inductive exn :=
| FileNotFoundError (p : string)
| IsADirectoryError (p : string)
| NotADirectoryError (p : string)
| FileExistsError (p : string)
| PatchError                      (** [bsdiff4.patch] on a corrupt delta *)
| TypeError                       (** [zipf.writestr(name, None)] *)
| StructError                     (** [struct.error] from a ZIP date field *)
| ValueError (msg : string)
| UsageError (msg : string).      (** click's rejection of a bad option *)

Inductive outcome (A : Type) := Ok (a : A) | Raise (e : exn).
Arguments Ok {A} a.
Arguments Raise {A} e.

Definition M (S A : Type) : Type := S -> S * outcome A.

Definition ret {S A} (a : A) : M S A := fun s => (s, Ok a).
Definition raise {S A} (e : exn) : M S A := fun s => (s, Raise e).
Definition bind {S A B} (m : M S A) (k : A -> M S B) : M S B :=
  fun s => match m s with
           | (s', Ok a) => k a s'
           | (s', Raise e) => (s', Raise e)
           end.
Definition get {S} : M S S := fun s => (s, Ok s).
Definition put {S} (s : S) : M S unit := fun _ => (s, Ok tt).

(** [try: m except Exception: handler] *)
Definition try_except {S} (m : M S unit) (handler : exn -> M S unit) : M S unit :=
  fun s => match m s with
           | (s', Ok tt) => (s', Ok tt)
           | (s', Raise e) => handler e s'
           end.

Definition lift_outcome {S A} (o : outcome A) : M S A :=
  match o with Ok a => ret a | Raise e => raise e end.

Notation "x <- m ;; k" := (bind m (fun x => k))
  (at level 61, m at next level, right associativity).
Notation "' pat <- m ;; k" := (bind m (fun x => match x with pat => k end))
  (at level 61, pat pattern, m at next level, right associativity).
Notation "m ;; k" := (bind m (fun _ => k))
  (at level 61, right associativity).

(* ------------------------------------------------------------------ *)
(** ** The file system seen by the applier *)

Inductive fobj := FileO (content : bytes) | DirO.

(** [files]: the file system under the working directory, keyed by
    normalised path; [zips]: the zip archives in the working directory. *)
Record St := mkSt { files : string -> option fobj ; zips : list (string * archive) }.

(** [os.path.exists(p)] *)
Definition os_path_exists (st : St) (p : string) : bool :=
  match files st (norm p) with Some _ => true | None => false end.

(** [open(p, 'rb').read()] *)
Definition read_file (p : string) : M St bytes :=
  fun st => match files st (norm p) with
            | Some (FileO b) => (st, Ok b)
            | Some DirO => (st, Raise (IsADirectoryError p))
            | None => (st, Raise (FileNotFoundError p))
            end.

Definition set_path (st : St) (q : string) (o : fobj) : St :=
  mkSt (fun q' => if String.eqb q' q then Some o else files st q') (zips st).

(** [open(p, 'wb').write(b)] *)
Definition write_file (p : string) (b : bytes) : M St unit :=
  fun st =>
    let parent := norm (dirname p) in
    let parent_ok :=
      if String.eqb parent "" then Ok tt
      else match files st parent with
           | Some DirO => Ok tt
           | Some (FileO _) => Raise (NotADirectoryError p)
           | None => Raise (FileNotFoundError p)
           end in
    match parent_ok with
    | Raise e => (st, Raise e)
    | Ok _ =>
        match files st (norm p) with
        | Some DirO => (st, Raise (IsADirectoryError p))
        | _ => (set_path st (norm p) (FileO b), Ok tt)
        end
    end.

(** [os.makedirs(d, exist_ok=True)] *)
Fixpoint makedirs_go (ds : list string) : M St unit :=
  match ds with
  | [] => ret tt
  | q :: r =>
      fun st => match files st q with
                | Some DirO => makedirs_go r st
                | Some (FileO _) => (st, Raise (FileExistsError q))
                | None => makedirs_go r (set_path st q DirO)
                end
  end.

Definition makedirs (d : string) : M St unit :=
  makedirs_go (ancestors "" (split_slash (norm d))).

(** [zipfile.ZipFile(path, 'r')] *)
Definition read_zip (path : string) : M St archive :=
  fun st => match find (fun z => String.eqb (fst z) path) (zips st) with
            | Some (_, a) => (st, Ok a)
            | None => (st, Raise (FileNotFoundError path))
            end.

(** [zipfile.ZipFile(path, 'w')] followed by its writes. *)
Definition write_zip (path : string) (a : archive) : M St unit :=
  fun st => (mkSt (files st) ((path, a) :: zips st), Ok tt).

(** A Python dict with insertion order: [d[k] = v]. *)
Fixpoint dict_set (d : list (string * bytes)) (k : string) (v : bytes)
  : list (string * bytes) :=
  match d with
  | [] => [(k, v)]
  | (k', v') :: r => if String.eqb k' k then (k, v) :: r else (k', v') :: dict_set r k v
  end.

(* ------------------------------------------------------------------ *)
(** ** patch_apply.py *)

Module Apply.
Section Applier.

(** [bsdiff4.diff] and [bsdiff4.patch]; the latter fails on a corrupt delta. *)
Variable bs_diff : bytes -> bytes -> bytes.
Variable bs_patch : bytes -> bytes -> option bytes.

(** The loop of [validate_patch]. *)
Fixpoint validate_names (st : St) (target_dir : string) (names : list string) : bool :=
  match names with
  | [] => true
  | patch_file :: rest =>
      if ends_with ".patch" patch_file then
        let original_file := join target_dir (py_replace ".patch" "" patch_file) in
        if os_path_exists st original_file then validate_names st target_dir rest
        else false
      else validate_names st target_dir rest
  end.

Definition validate_patch (patch_path target_dir : string) : M St bool :=
  zipf <- read_zip patch_path ;;
  st <- get ;;
  ret (validate_names st target_dir (namelist zipf)).

Definition create_reverse_patch (original_data new_data : bytes)
    (reverse_patches : list (string * bytes)) (original_file_path : string)
  : list (string * bytes) :=
  let reverse_patch_data := bs_diff new_data original_data in
  let patch_name := relpath original_file_path ++ ".patch" in
  dict_set reverse_patches patch_name reverse_patch_data.

(** One iteration of the loop of [apply_patch_with_backup]; the accumulator
    is [(patch_size, reverse_patches)]. *)
Definition apply_one (zipf : archive) (target_dir : string) (create_backup : bool)
    (acc : nat * list (string * bytes)) (patch_file : string)
  : M St (nat * list (string * bytes)) :=
  let '(patch_size, reverse_patches) := acc in
  if ends_with ".patch" patch_file then
    let original_file_path := join target_dir (py_replace ".patch" "" patch_file) in
    original_data <- read_file original_file_path ;;
    let patch_data := zip_read zipf patch_file in
    let patch_size := patch_size + length patch_data in
    new_data <- (match bs_patch original_data patch_data with
                 | Some d => ret d
                 | None => raise PatchError
                 end) ;;
    let reverse_patches :=
      if create_backup
      then create_reverse_patch original_data new_data reverse_patches original_file_path
      else reverse_patches in
    write_file original_file_path new_data ;;
    ret (patch_size, reverse_patches)
  else
    let destination_path := join target_dir patch_file in
    makedirs (dirname destination_path) ;;
    write_file destination_path (zip_read zipf patch_file) ;;
    ret (patch_size, reverse_patches).

Fixpoint apply_loop (zipf : archive) (target_dir : string) (create_backup : bool)
    (acc : nat * list (string * bytes)) (names : list string)
  : M St (nat * list (string * bytes)) :=
  match names with
  | [] => ret acc
  | n :: rest =>
      acc' <- apply_one zipf target_dir create_backup acc n ;;
      apply_loop zipf target_dir create_backup acc' rest
  end.

Definition apply_patch_with_backup (patch_path target_dir : string) (create_backup : bool)
  : M St nat :=
  zipf <- read_zip patch_path ;;
  '(patch_size, reverse_patches) <-
     apply_loop zipf target_dir create_backup (0, []) (namelist zipf) ;;
  (if create_backup
   then write_zip (py_replace ".zip" "_revertpatch.zip" patch_path) reverse_patches
   else ret tt) ;;
  ret patch_size.

(** [find_patches()] *)
Definition find_patches : M St (list string) :=
  st <- get ;;
  ret (filter (ends_with "_patch.zip") (map fst (zips st))).

Fixpoint validate_all (patches : list string) (target : string) : M St bool :=
  match patches with
  | [] => ret true
  | p :: rest =>
      ok <- validate_patch p target ;;
      if ok then validate_all rest target else ret false
  end.

Fixpoint apply_all (patches : list string) (target : string) (backup : bool) : M St unit :=
  match patches with
  | [] => ret tt
  | p :: rest => apply_patch_with_backup p target backup ;; apply_all rest target backup
  end.

(** The command-line [main] (the [--gui] branch is the GUI, out of scope). *)
Definition main (backup : bool) (target : option string) : M St unit :=
  patches <- find_patches ;;
  match target with
  | None => ret tt
  | Some target =>
      match patches with
      | [] => ret tt
      | _ =>
          ok <- validate_all patches target ;;
          if ok then apply_all patches target backup else ret tt
      end
  end.

End Applier.
End Apply.

(* ------------------------------------------------------------------ *)
(** ** The directory trees read by the builder *)

(** A regular file carries its content and its modification time (the part
    of the [os.stat] signature [filecmp] looks at besides the size). *)
Inductive node :=
| File (content : bytes) (mtime : Z)
| Dir (entries : list (string * node)).

Fixpoint assoc (k : string) (es : list (string * node)) : option node :=
  match es with
  | [] => None
  | (k', n) :: r => if String.eqb k' k then Some n else assoc k r
  end.

Definition mem (k : string) (es : list (string * node)) : bool :=
  match assoc k es with Some _ => true | None => false end.

Fixpoint lookup_segs (n : node) (segs : list string) : option node :=
  match segs with
  | [] => Some n
  | s :: r =>
      match n with
      | Dir es => match assoc s es with Some c => lookup_segs c r | None => None end
      | File _ _ => None
      end
  end.

(** The node at a path relative to the working directory [root]. *)
Definition lookup (root : node) (p : string) : option node :=
  lookup_segs root (path_segs p).

Definition is_file (n : node) : bool := match n with File _ _ => true | Dir _ => false end.
Definition is_dir (n : node) : bool := match n with Dir _ => true | File _ _ => false end.

Definition bytes_eqb (a b : bytes) : bool :=
  if list_eq_dec Byte.byte_eq_dec a b then true else false.

(** [filecmp.cmp(f1, f2, shallow)] on two regular files: equal signatures
    (size and mtime) short-circuit to "same" when [shallow]; different sizes
    mean "different"; otherwise the contents are compared. *)
Definition filecmp_cmp (shallow : bool) (f1 f2 : node) : bool :=
  match f1, f2 with
  | File b1 m1, File b2 m2 =>
      if shallow && Nat.eqb (length b1) (length b2) && Z.eqb m1 m2 then true
      else if negb (Nat.eqb (length b1) (length b2)) then false
      else bytes_eqb b1 b2
  | _, _ => false
  end.

(** [is_file_different] *)
Definition is_file_different (f1 f2 : node) : bool :=
  if filecmp_cmp true f1 f2 then false else negb (filecmp_cmp false f1 f2).

(** [os.path.basename] *)
Definition basename (p : string) : string := last (split_slash p) "".

(** [os.path.relpath(p, start)] for a path [p] below [start]. *)
Fixpoint strip_prefix (pre s : string) : option string :=
  match pre, s with
  | EmptyString, _ => Some s
  | String a pre', String b s' => if Ascii.eqb a b then strip_prefix pre' s' else None
  | String _ _, EmptyString => None
  end.

Definition relpath_from (start p : string) : string :=
  match strip_prefix (start ++ "/") p with
  | Some r => norm r
  | None => norm p
  end.

(* ------------------------------------------------------------------ *)
(** ** patch_create.py: [find_differences] *)

(** The recursion of [find_differences] on a pair of directories; [bdir] is
    the base directory, [tents] the entries of the target directory.  The
    Python sets [only_in_target] and [common_files] are iterated here in
    listing order (Python's order is unspecified), and the changed files of
    one level are collected in that order (Python: order of completion). *)
Fixpoint find_differences_in (base target : string) (bdir : node)
    (tents : list (string * node)) {struct bdir} : list string * list string :=
  match bdir with
  | File _ _ => ([], [])
  | Dir bents =>
      let only_in_target := filter (fun e => negb (mem (fst e) bents)) tents in
      let new := map (fun e => join target (fst e)) only_in_target in
      let changed :=
        flat_map (fun e =>
                    match assoc (fst e) tents with
                    | Some t =>
                        if is_file (snd e) && is_file t && is_file_different (snd e) t
                        then [join base (fst e)] else []
                    | None => []
                    end) bents in
      let sub :=
        (fix go (es : list (string * node)) : list string * list string :=
           match es with
           | [] => ([], [])
           | (name, bn) :: r =>
               let rest := go r in
               match bn, assoc name tents with
               | Dir _, Some (Dir tsub) =>
                   let sd := find_differences_in (join base name) (join target name) bn tsub in
                   (app (fst sd) (fst rest), app (snd sd) (snd rest))
               | _, _ => rest
               end
           end) bents in
      (app changed (fst sub), app new (snd sub))
  end.

(** [find_differences(base, target)]: [os.scandir] fails on a missing path
    or a file. *)
Definition find_differences (root : node) (base target : string)
  : outcome (list string * list string) :=
  match lookup root base, lookup root target with
  | Some (Dir bents), Some (Dir tents) => Ok (find_differences_in base target (Dir bents) tents)
  | None, _ => Raise (FileNotFoundError base)
  | Some (File _ _), _ => Raise (NotADirectoryError base)
  | _, None => Raise (FileNotFoundError target)
  | _, Some (File _ _) => Raise (NotADirectoryError target)
  end.

(* ------------------------------------------------------------------ *)
(** ** patch_create.py: per-file patch creation and the archive *)

(** The module globals set by [main]. *)
Record config := mkConfig {
  flag_verbose : bool;
  flag_large_file_strategy : string;
  flag_split_size : Z;
  flag_large_file_size : Z
}.

Definition get_chunk_size (cfg : config) : Z := flag_split_size cfg * 1024 * 1024.

(** Reading a file of the tree inside a computation on the open archive. *)
Definition read_path (root : node) (p : string) : M archive bytes :=
  fun a => match lookup root p with
           | Some (File b _) => (a, Ok b)
           | Some (Dir _) => (a, Raise (IsADirectoryError p))
           | None => (a, Raise (FileNotFoundError p))
           end.

(** [os.path.getsize(p)]; it is only called on regular files (a directory's
    [st_size] depends on the file system and is given as 0). *)
Definition getsize (root : node) (p : string) : M archive Z :=
  fun a => match lookup root p with
           | Some (File b _) => (a, Ok (Z.of_nat (length b)))
           | Some (Dir _) => (a, Ok 0%Z)
           | None => (a, Raise (FileNotFoundError p))
           end.

(** [zipf.writestr(name, data)] *)
Definition zipf_writestr (name : string) (data : bytes) : M archive unit :=
  fun a => (app a [(name, data)], Ok tt).

(** The year of [time.localtime(t)] for a time [t] counted in seconds of
    local time since 1970-01-01 00:00, on the proleptic Gregorian calendar.
    The [mtime] of a [File] is such a count: it is [st_mtime] shifted by
    the machine's UTC offset, which keeps the equality [filecmp] tests. *)
Definition localtime_year (t : Z) : Z :=
  let z := (t / 86400 + 719468)%Z in
  let era := (z / 146097)%Z in
  let doe := (z - era * 146097)%Z in
  let yoe := ((doe - doe / 1460 + doe / 36524 - doe / 146096) / 365)%Z in
  let doy := (doe - (365 * yoe + yoe / 4 - yoe / 100))%Z in
  let mp := ((5 * doy + 2) / 153)%Z in
  (yoe + era * 400 + (if (mp <? 10)%Z then 0 else 1))%Z.

(** [zipf.write(path, arcname)]: [ZipInfo.from_file] stats the file, takes
    the date of its mtime and refuses a year before 1980 with [ValueError];
    a year after 2107 overflows the 16-bit date field of the local header
    ([struct.error]).  Both are raised before anything is added to the
    archive.  A directory is stored as an empty entry named
    [arcname + '/'], without its contents; the trees here carry no
    directory mtimes, and a directory's date is taken to be in range. *)
Definition zipf_write (root : node) (path arcname : string) : M archive unit :=
  fun a => match lookup root path with
           | Some (File b m) =>
               if (localtime_year m <? 1980)%Z
               then (a, Raise (ValueError "ZIP does not support timestamps before 1980"))
               else if (2107 <? localtime_year m)%Z then (a, Raise StructError)
               else (app a [(norm arcname, b)], Ok tt)
           | Some (Dir _) => (app a [(norm arcname ++ "/", [])], Ok tt)
           | None => (a, Raise (FileNotFoundError path))
           end.

(** The content of a regular file, as a child process reading [p] sees it. *)
Definition file_content (root : node) (p : string) : option bytes :=
  match lookup root p with Some (File b _) => Some b | _ => None end.

(** The successive [f.read(size)] calls of [split_file_into_chunks] on the
    content [l]: they stop at the first empty read. *)
Fixpoint chunks_go (fuel size : nat) (l : bytes) : list bytes :=
  match fuel with
  | O => []
  | S f =>
      match firstn size l with
      | [] => []
      | c => c :: chunks_go f size (skipn size l)
      end
  end.

Definition chunks (size : nat) (l : bytes) : list bytes := chunks_go (length l) size l.

Fixpoint for_each {S A} (f : A -> M S unit) (l : list A) : M S unit :=
  match l with
  | [] => ret tt
  | x :: r => f x ;; for_each f r
  end.

Section Builder.

(** [bsdiff4.diff] (run in a child process by [bsdiff4_diff]) and
    [xdeltawrapper.create_patch(old_file, new_file)].  The latter runs the
    xdelta3 executable on the two paths, given here by the contents found
    there ([None] for a path that is not a regular file): it returns
    [Ok (Some data)], [Ok None] when xdelta3 exits with an error (the
    [CalledProcessError] it catches), or raises what [subprocess.run]
    raises otherwise, e.g. [FileNotFoundError] when [xdelta.exe] is
    missing. *)
Variable bsdiff4_diff : bytes -> bytes -> bytes.
Variable xdelta_create_patch : option bytes -> option bytes -> outcome (option bytes).

Variable cfg : config.
Variable root : node.

(** [list(split_file_into_chunks(file_path))] *)
Definition split_file_into_chunks (file_path : string) : M archive (list bytes) :=
  b <- read_path root file_path ;;
  ret (chunks (Z.to_nat (get_chunk_size cfg)) b).

(** [for idx, (base_chunk, target_chunk) in enumerate(zip(...))] *)
Fixpoint write_chunk_patches (rel_path : string) (idx : nat)
    (pairs : list (bytes * bytes)) : M archive unit :=
  match pairs with
  | [] => ret tt
  | (base_chunk, target_chunk) :: rest =>
      let patch_data := bsdiff4_diff base_chunk target_chunk in
      let patch_name := rel_path ++ ".part_" ++ str_nat idx ++ ".patch" in
      zipf_writestr patch_name patch_data ;;
      write_chunk_patches rel_path (S idx) rest
  end.

Definition split_and_patch_large_file (diff_file target_file_path rel_path : string)
  : M archive unit :=
  base_chunks <- split_file_into_chunks diff_file ;;
  target_chunks <- split_file_into_chunks target_file_path ;;
  write_chunk_patches rel_path 0 (combine base_chunks target_chunks).

Definition xdelta_patch_large_file (diff_file target_file_path rel_path : string)
  : M archive unit :=
  patch_data <- lift_outcome (xdelta_create_patch (file_content root diff_file)
                                                  (file_content root target_file_path)) ;;
  let patch_name := rel_path ++ ".vcdiff" in
  match patch_data with
  | Some patch_data => zipf_writestr patch_name patch_data
  | None => raise TypeError
  end.

Definition copy_large_file_to_zip (target_file_path rel_path : string) : M archive unit :=
  zipf_write root target_file_path rel_path.

Definition handle_large_file (diff_file target_file_path rel_path : string)
  : M archive unit :=
  let s := flag_large_file_strategy cfg in
  if String.eqb s "copy" then copy_large_file_to_zip target_file_path rel_path
  else if String.eqb s "skip" then ret tt
  else if String.eqb s "split" && (0 <? flag_split_size cfg)%Z
  then split_and_patch_large_file diff_file target_file_path rel_path
  else if String.eqb s "xdelta" then xdelta_patch_large_file diff_file target_file_path rel_path
  else raise (ValueError ("Unknown large file strategy: " ++ s)).

Definition create_patch_for_file (diff_file target_file_path rel_path : string)
  : M archive unit :=
  data_size <- getsize root diff_file ;;
  if (flag_large_file_size cfg * 1024 * 1024 <? data_size)%Z
  then handle_large_file diff_file target_file_path rel_path
  else
    old <- read_path root diff_file ;;
    new <- read_path root target_file_path ;;
    let patch_data := bsdiff4_diff old new in
    let patch_name := rel_path ++ ".patch" in
    zipf_writestr patch_name patch_data.

(** The body of [with zipfile.ZipFile(patch_file, 'w') as zipf:] in
    [create_binary_patch], in the schedule where the thread pool runs the
    per-file tasks one after the other in the order of [changed]: each
    [future.result()] runs inside [try ... except Exception].  Every
    schedule is covered by [create_binary_patch_sched] below. *)
Definition create_binary_patch_body (base target : string)
    (changed new : list string) : M archive unit :=
  for_each (fun diff_file =>
              let rel_path := relpath_from base diff_file in
              let target_file_path := join target rel_path in
              try_except (create_patch_for_file diff_file target_file_path rel_path)
                         (fun _ => ret tt)) changed ;;
  for_each (fun new_file => zipf_write root new_file (relpath_from target new_file)) new.

(** The body of the [with] block of [create_file_patch]. *)
Definition create_file_patch_body (base target : string)
    (changed new : list string) : M archive unit :=
  for_each (fun diff_file => zipf_write root diff_file (relpath_from base diff_file)) changed ;;
  for_each (fun new_file => zipf_write root new_file (relpath_from target new_file)) new.

End Builder.

(** The zip files written in the working directory. *)
Definition Out := list (string * archive).

(** [with zipfile.ZipFile(path, 'w') as zipf: body]: the file is written
    when the block exits, also when it exits by an exception. *)
Definition with_zipfile (path : string) (body : M archive unit) : M Out unit :=
  fun outs => let '(a, r) := body [] in ((path, a) :: outs, r).

Definition create_binary_patch bsdiff4_diff xdelta_create_patch (cfg : config) (root : node)
    (base target patch_file : string) : M Out unit :=
  '(changed, new) <- lift_outcome (find_differences root base target) ;;
  with_zipfile patch_file
    (create_binary_patch_body bsdiff4_diff xdelta_create_patch cfg root base target changed new).

(** [create_binary_patch] in any schedule of its thread pool.  The
    per-file tasks share the archive and run concurrently; a schedule is
    given by the entries they wrote, in the order they were written, and by
    the outcomes of their futures, in the order [as_completed] yields them.
    The code that follows the pool does not depend on the schedule. *)
Definition pool_phase (written : archive) (results : list (outcome unit)) : M archive unit :=
  (fun a => (app a written, Ok tt)) ;;
  for_each (fun r => try_except (lift_outcome r) (fun _ => ret tt)) results.

Definition create_binary_patch_sched (root : node) (base target patch_file : string)
    (written : archive) (results : list (outcome unit)) : M Out unit :=
  '(changed, new) <- lift_outcome (find_differences root base target) ;;
  with_zipfile patch_file
    (pool_phase written results ;;
     for_each (fun new_file => zipf_write root new_file (relpath_from target new_file)) new).

Definition create_file_patch (root : node) (base target patch_dir : string) : M Out unit :=
  '(changed, new) <- lift_outcome (find_differences root base target) ;;
  with_zipfile (patch_dir ++ ".zip") (create_file_patch_body root base target changed new).

(** [click.Choice(choices, case_sensitive=False).convert]: the choice
    whose [casefold()] equals the value's, as declared, or a usage error.
    [casefold] is Python's [str.casefold] on the text the strings encode
    (full Unicode case folding, e.g. ['ſkip'] folds to ['skip']). *)
Definition choice_convert (casefold : string -> string) (choices : list string) (value : string)
  : option string :=
  find (fun c => String.eqb (casefold c) (casefold value)) choices.

Definition mode_choices : list string := ["file"; "binary"].
Definition large_file_strategy_choices : list string := ["copy"; "split"; "skip"; "xdelta"].

(** The command-line [main] of patch_create.py.  click converts the options
    before it calls the function body; a value outside a [Choice] stops the
    command with a usage error and the body never runs. *)
Definition main (casefold : string -> string) bsdiff4_diff xdelta_create_patch (root : node)
    (base target : string) (patch_dir : option string) (mode : string) (verbose : bool)
    (large_file_strategy : string) (split_size large_file_size : Z) : M Out unit :=
  match choice_convert casefold mode_choices mode with
  | None => raise (UsageError ("Invalid value for '--mode': " ++ mode))
  | Some mode =>
  match choice_convert casefold large_file_strategy_choices large_file_strategy with
  | None => raise (UsageError ("Invalid value for '--large-file-strategy': " ++ large_file_strategy))
  | Some large_file_strategy =>
      let cfg := mkConfig verbose large_file_strategy split_size large_file_size in
      let default_name := py_replace " " "_" (basename base ++ "_" ++ basename target ++ "_patch") in
      let patch_dir :=
        match patch_dir with
        | Some p => p
        | None => if String.eqb mode "binary" then default_name ++ ".zip" else default_name
        end in
      if String.eqb mode "binary"
      then create_binary_patch bsdiff4_diff xdelta_create_patch cfg root base target patch_dir
      else create_file_patch root base target patch_dir
  end
  end.

(** [sub in s] *)
Fixpoint contains (sub s : string) : bool :=
  String.prefix sub s ||
  match s with
  | EmptyString => false
  | String _ r => contains sub r
  end.

(* ================================================================== *)
(** * Concrete scenarios *)

(** Codec instances used to run the development on concrete inputs: a delta
    that is the new content itself satisfies the round-trip law
    [bs_patch a (bs_diff a b) = Some b] of the opaque primitives. *)
Definition copy_diff (old new : bytes) : bytes := new.
Definition copy_patch (old delta : bytes) : option bytes := Some delta.
Definition copy_xdelta (old new : option bytes) : outcome (option bytes) := Ok new.

(** [str.casefold] on ASCII text, the instance used on concrete inputs. *)
Definition lower_ascii (c : ascii) : ascii :=
  let n := nat_of_ascii c in
  if (65 <=? n)%nat && (n <=? 90)%nat then ascii_of_nat (n + 32) else c.

Fixpoint casefold_ascii (s : string) : string :=
  match s with
  | EmptyString => EmptyString
  | String c r => String (lower_ascii c) (casefold_ascii r)
  end.

(** A file system with the given directories and files. *)
Definition mk_files (dirs : list string) (fls : list (string * bytes)) : string -> option fobj :=
  fun p => if existsb (String.eqb p) dirs then Some DirO
           else match find (fun e => String.eqb (fst e) p) fls with
                | Some (_, b) => Some (FileO b)
                | None => None
                end.

(** A tree [t] holding [t/big.bin]; one archive with a chunk entry for
    [big.bin], one with an external-tool entry for the absent [gone.bin]. *)
Definition st_chunk : St :=
  mkSt (mk_files ["t"] [("t/big.bin", [Byte.x01])])
       [("chunk_patch.zip", [("big.bin.part_0.patch", [Byte.x02])]);
        ("ext_patch.zip", [("gone.bin.vcdiff", [Byte.x03])])].

(** Trees [v1] and [v2] for the builder. *)
Definition root_small : node :=
  Dir [("v1", Dir [("a.txt", File [Byte.x01] 0)]);
       ("v2", Dir [("a.txt", File [Byte.x02] 1)])].

Definition cfg_split : config := mkConfig false "split" 1 0.

(** [n] zero bytes. *)
Definition zeros (n : positive) : bytes := Pos.iter (cons Byte.x00) [] n.

(** A base file of 2 MiB + 1 bytes and a target of 1 MiB + 1 bytes: three
    and two chunks of 1 MiB at a split size of 1. *)
Definition root_big : node :=
  Dir [("v1", Dir [("big.bin", File (zeros 2097153) 0)]);
       ("v2", Dir [("big.bin", File (zeros 1048577) 1)])].

(** The trees of [root_small] with mtimes in 2023, which [zipf.write]
    accepts. *)
Definition root_dated : node :=
  Dir [("v1", Dir [("a.txt", File [Byte.x01] 1700000000)]);
       ("v2", Dir [("a.txt", File [Byte.x02] 1700000001)])].

(** The archive written by a run of the builder. *)
Definition built_archive (o : Out * outcome unit) : archive :=
  match fst o with
  | (_, a) :: _ => a
  | [] => []
  end.

(** A large changed file [big.bin] under the default [xdelta] strategy
    (threshold 0 MiB); the archive built from [v1] to [v2], and the base tree
    [v1] with that archive in the working directory. *)
Definition root_ext : node :=
  Dir [("v1", Dir [("big.bin", File [Byte.x01] 0)]);
       ("v2", Dir [("big.bin", File [Byte.x02; Byte.x02] 1)])].

Definition cfg_xdelta : config := mkConfig false "xdelta" 16 0.

Definition ext_archive : archive :=
  built_archive (create_binary_patch copy_diff copy_xdelta cfg_xdelta root_ext
                   "v1" "v2" "v1_v2_patch.zip" []).

Definition st_ext : St :=
  mkSt (mk_files ["v1"] [("v1/big.bin", [Byte.x01])]) [("v1_v2_patch.zip", ext_archive)].

(** A base tree [game] (not the working directory) with [game/a.txt], and
    an archive with the full delta of [a.txt] from [01] to [02]. *)
Definition st_game (bd : bytes -> bytes -> bytes) : St :=
  mkSt (mk_files ["game"] [("game/a.txt", [Byte.x01])])
       [("upd_patch.zip", [("a.txt.patch", bd [Byte.x01] [Byte.x02])])].

(** A target tree with a new directory [d] holding [x.txt]. *)
Definition root_newdir : node :=
  Dir [("v1", Dir []);
       ("v2", Dir [("d", Dir [("x.txt", File [Byte.x01] 0)])])].

Definition st_newdir : St :=
  mkSt (mk_files ["v1"] []) [("v1_v2_patch.zip", [("d/", [])])].

(** A tree [t] with a file [t/a] and an archive whose only entry is the new
    file [a.patch.patch], stored verbatim. *)
Definition st_dp : St :=
  mkSt (mk_files ["t"] [("t/a", [Byte.x01])]) [("dp_patch.zip", [("a.patch.patch", [Byte.x05])])].



(** A computation on the open archive that only appends entries to it, the
    same ones whatever the archive already holds. *)
Definition appends {A} (m : M archive A) : Prop :=
  forall a, m a = (app a (fst (m [])), snd (m [])).

(** Well-formed trees, as a file system lists them: in every directory the
    entry names are distinct, non-empty, neither [.] nor [..], and free of
    ['/']. *)
Definition good_name (s : string) : bool :=
  negb (String.eqb s "") && negb (String.eqb s ".") && negb (String.eqb s "..") &&
  negb (contains "/" s).

Fixpoint names_nodup (l : list string) : bool :=
  match l with
  | [] => true
  | x :: r => negb (existsb (String.eqb x) r) && names_nodup r
  end.

Fixpoint wf_node (n : node) : bool :=
  match n with
  | File _ _ => true
  | Dir es =>
      names_nodup (map fst es) && forallb (fun e => good_name (fst e)) es &&
      (fix go (es : list (string * node)) : bool :=
         match es with
         | [] => true
         | (_, c) :: r => wf_node c && go r
         end) es
  end.


(** Induction on trees through the entries of directories. *)
Fixpoint node_ind' (P : node -> Prop) (HF : forall b m, P (File b m))
    (HD : forall es, Forall (fun e => P (snd e)) es -> P (Dir es)) (n : node) {struct n} : P n :=
  match n with
  | File b m => HF b m
  | Dir es =>
      HD es ((fix go (es : list (string * node)) : Forall (fun e => P (snd e)) es :=
                match es with
                | [] => Forall_nil _
                | (k, c) :: r => @Forall_cons _ (fun e => P (snd e)) (k, c) r
                                   (node_ind' P HF HD c) (go r)
                end) es)
  end.

(** What [find_differences_in] reports about the tree it walks. *)
Definition changed_ok (root : node) (base target f : string) : Prop :=
  exists r b1 m1 b2 m2, f = join base r /\
    lookup root f = Some (File b1 m1) /\
    lookup root (join target r) = Some (File b2 m2) /\
    is_file_different (File b1 m1) (File b2 m2) = true.

Definition new_ok (root : node) (base target f : string) : Prop :=
  exists r n, f = join target r /\ lookup root f = Some n /\ lookup root (join base r) = None.

(* ------------------------------------------------------------------ *)
(** ** [bytes_to_human_readable] (the same in both scripts) *)

(** The loop over the units, on the value [num] that [num /= 1024.0] has
    produced so far; the result is the value and the unit that
    [f"{num:.2f} {unit}"] formats (the formatting itself is not modelled),
    and [None] is the implicit return after the loop.  Rationals are exact
    here: dividing by [1024.0] is exact in binary floating point, and every
    comparison the loop can reach tests against [1024^k] with [k <= 5], a
    power of two below [2^53], where [float(num)] is exact.  For an int
    [num] of [2^1024 - 2^970] or more the first [num /= 1024.0] raises
    [OverflowError] (the int does not convert to a float); the model is for
    sizes below that bound. *)
Fixpoint human_readable_go (units : list string) (num : Q) : option (Q * string) :=
  match units with
  | [] => None
  | unit :: r => if Qlt_le_dec num 1024 then Some (num, unit) else human_readable_go r (num / 1024)%Q
  end.

Definition human_units : list string := ["bytes"; "KB"; "MB"; "GB"; "TB"].

Definition bytes_to_human_readable (num : Z) : option (Q * string) :=
  human_readable_go human_units (inject_Z num).

(* ================================================================== *)
(** * Lemmas on strings *)

Lemma ends_with_app (suf s : string) :
  ends_with suf s = true <-> exists m, s = m ++ suf.
Proof.
  split.
  - induction s as [|c r IH]; cbn [ends_with]; intros H.
    + exists "". destruct suf; [reflexivity | discriminate].
    + apply orb_true_iff in H as [H | H].
      * apply String.eqb_eq in H. subst. exists "". reflexivity.
      * destruct (IH H) as [m ->]. exists (String c m). reflexivity.
  - intros [m ->]. induction m as [|c m IH].
    + destruct suf; cbn [ends_with append]; [reflexivity|].
      now rewrite String.eqb_refl.
    + cbn [ends_with append]. now rewrite IH, orb_true_r.
Qed.

Lemma string_app_assoc (a b c : string) : (a ++ b) ++ c = a ++ (b ++ c).
Proof. induction a as [|x a IH]; simpl; [reflexivity | now rewrite IH]. Qed.






(* ================================================================== *)
(** * Lemmas on the applier *)


Lemma validate_patch_reads_only (p target : string) (st : St) :
  fst (Apply.validate_patch p target st) = st.
Proof.
  unfold Apply.validate_patch, bind, read_zip, get, ret.
  destruct (find _ (zips st)) as [[? ?]|]; reflexivity.
Qed.

Lemma validate_all_reads_only (ps : list string) (target : string) (st : St) :
  fst (Apply.validate_all ps target st) = st /\
  (snd (Apply.validate_all ps target st) = Ok true ->
   forall p, In p ps -> Apply.validate_patch p target st = (st, Ok true)).
Proof.
  induction ps as [|p ps IH]; [split; [reflexivity | intros _ p []]|].
  cbn [Apply.validate_all]. unfold bind.
  pose proof (validate_patch_reads_only p target st) as Hv.
  destruct (Apply.validate_patch p target st) as [st' [[|]|e]] eqn:E;
    simpl in Hv; subst st'.
  - destruct IH as [IH1 IH2]. split; [exact IH1|].
    intros Hok q [<- | Hq]; [exact E | apply IH2; [exact Hok | exact Hq]].
  - split; [reflexivity | discriminate].
  - split; [reflexivity | discriminate].
Qed.


(* ================================================================== *)
(** * Lemmas on the builder *)



Section Appends.

Variable bd : bytes -> bytes -> bytes.
Variable xc : option bytes -> option bytes -> outcome (option bytes).
Variable cfg : config.
Variable root : node.

Lemma appends_ret {A} (x : A) : appends (ret x).
Proof. intros a. unfold ret. simpl. now rewrite app_nil_r. Qed.

Lemma appends_raise {A} e : appends (A:=A) (raise e).
Proof. intros a. unfold raise. simpl. now rewrite app_nil_r. Qed.

Lemma appends_bind {A B} (m : M archive A) (k : A -> M archive B) :
  appends m -> (forall x, appends (k x)) -> appends (bind m k).
Proof.
  intros Hm Hk a. unfold bind. rewrite (Hm a).
  destruct (m []) as [m0 [x|e]]; cbn [fst snd].
  - rewrite (Hk x (app a m0)), (Hk x m0). cbn [fst snd]. now rewrite app_assoc.
  - reflexivity.
Qed.

Lemma appends_zipf_writestr n d : appends (zipf_writestr n d).
Proof. intros a. reflexivity. Qed.

Lemma appends_zipf_write p r : appends (zipf_write root p r).
Proof.
  intros a. unfold zipf_write. destruct (lookup root p) as [[b m|]|];
    [destruct (localtime_year m <? 1980)%Z; [|destruct (2107 <? localtime_year m)%Z] | |];
    simpl; try rewrite app_nil_r; reflexivity.
Qed.

Lemma appends_lift_outcome {A} (o : outcome A) : appends (lift_outcome o).
Proof. destruct o; [apply appends_ret | apply appends_raise]. Qed.

Lemma appends_read_path p : appends (read_path root p).
Proof.
  intros a. unfold read_path. destruct (lookup root p) as [[]|]; simpl;
    rewrite app_nil_r; reflexivity.
Qed.

Lemma appends_getsize p : appends (getsize root p).
Proof.
  intros a. unfold getsize. destruct (lookup root p) as [[]|]; simpl;
    rewrite app_nil_r; reflexivity.
Qed.

Lemma appends_for_each {A} (f : A -> M archive unit) l :
  (forall x, appends (f x)) -> appends (for_each f l).
Proof.
  intros Hf. induction l as [|x l IH]; simpl.
  - apply appends_ret.
  - apply appends_bind; [apply Hf | intros _; exact IH].
Qed.

Create HintDb appends.
#[local] Hint Resolve appends_ret appends_raise appends_bind appends_zipf_writestr
  appends_zipf_write appends_read_path appends_getsize appends_for_each appends_lift_outcome
  : appends.

Lemma appends_write_chunk_patches rel idx pairs : appends (write_chunk_patches bd rel idx pairs).
Proof.
  revert idx. induction pairs as [|[b t] pairs IH]; intros idx; simpl; auto with appends.
Qed.

#[local] Hint Resolve appends_write_chunk_patches : appends.

Lemma appends_create_patch_for_file d t r : appends (create_patch_for_file bd xc cfg root d t r).
Proof.
  unfold create_patch_for_file, handle_large_file, split_and_patch_large_file,
    split_file_into_chunks, xdelta_patch_large_file, copy_large_file_to_zip.
  apply appends_bind; [auto with appends|]. intros size.
  repeat match goal with
         | |- appends (if ?c then _ else _) => destruct c
         | |- appends (match ?c with _ => _ end) => destruct c
         | |- appends (bind _ _) => apply appends_bind; [auto with appends|intros ?]
         end; auto with appends.
Qed.

(** A task run under [try ... except Exception: pass] appends what it wrote
    before it stopped and never raises. *)
Lemma try_except_pass (m : M archive unit) a :
  appends m -> try_except m (fun _ => ret tt) a = (app a (fst (m [])), Ok tt).
Proof.
  intros Hm. unfold try_except. rewrite (Hm a).
  destruct (m []) as [m0 [[]|e]]; reflexivity.
Qed.

Lemma for_each_try_except_pass {A} (f : A -> M archive unit) l a :
  (forall x, appends (f x)) ->
  for_each (fun x => try_except (f x) (fun _ => ret tt)) l a
    = (app a (concat (map (fun x => fst (f x [])) l)), Ok tt).
Proof.
  intros Hf. revert a. induction l as [|x l IH]; intros a; simpl.
  - now rewrite app_nil_r.
  - unfold bind. rewrite try_except_pass by apply Hf. rewrite IH. now rewrite app_assoc.
Qed.

End Appends.





(** The archive of a binary build: every changed file's task runs under
    [try ... except Exception], in turn, then the new files are written. *)
Lemma create_binary_patch_archive bd xc cfg root base target patch_file outs changed new :
  find_differences root base target = Ok (changed, new) ->
  create_binary_patch bd xc cfg root base target patch_file outs
    = ((patch_file,
        app (concat (map (fun f => fst (create_patch_for_file bd xc cfg root f
                                          (join target (relpath_from base f))
                                          (relpath_from base f) [])) changed))
            (fst (for_each (fun nf => zipf_write root nf (relpath_from target nf)) new [])))
       :: outs,
       snd (for_each (fun nf => zipf_write root nf (relpath_from target nf)) new [])).
Proof.
  intros H. unfold create_binary_patch. rewrite H. unfold bind, lift_outcome, ret.
  unfold with_zipfile, create_binary_patch_body. unfold bind at 1.
  rewrite (for_each_try_except_pass
             (fun f => create_patch_for_file bd xc cfg root f (join target (relpath_from base f))
                         (relpath_from base f)))
    by (intros; apply appends_create_patch_for_file).
  rewrite app_nil_l.
  rewrite (appends_for_each _ new (fun nf => appends_zipf_write root nf _)).
  reflexivity.
Qed.

(** Whatever the schedule, the pool phase leaves the entries the tasks
    wrote and raises nothing. *)
Lemma pool_phase_run written results a :
  pool_phase written results a = (app a written, Ok tt).
Proof.
  unfold pool_phase, bind.
  rewrite for_each_try_except_pass by (intros; apply appends_lift_outcome).
  assert (E : forall l : list (outcome unit),
             concat (map (fun x => fst (lift_outcome (S:=archive) x [])) l) = []).
  { induction l as [|[[]|e] l IH]; [reflexivity| |]; cbn; exact IH. }
  now rewrite E, app_nil_r.
Qed.

Lemma create_binary_patch_sched_spec root base target patch_file outs changed new written results :
  find_differences root base target = Ok (changed, new) ->
  create_binary_patch_sched root base target patch_file written results outs
    = ((patch_file,
        app written (fst (for_each (fun nf => zipf_write root nf (relpath_from target nf)) new [])))
       :: outs,
       snd (for_each (fun nf => zipf_write root nf (relpath_from target nf)) new [])).
Proof.
  intros H. unfold create_binary_patch_sched. rewrite H. unfold bind at 1. unfold lift_outcome, ret.
  unfold with_zipfile. unfold bind at 1. rewrite pool_phase_run, app_nil_l.
  rewrite (appends_for_each _ new (fun nf => appends_zipf_write root nf _)).
  reflexivity.
Qed.

(** The sequential run of [create_binary_patch] is the schedule in which
    every task runs alone, in the order of [changed]. *)
Lemma create_binary_patch_sequential bd xc cfg root base target patch_file outs changed new :
  find_differences root base target = Ok (changed, new) ->
  let task f := create_patch_for_file bd xc cfg root f (join target (relpath_from base f))
                  (relpath_from base f) [] in
  create_binary_patch bd xc cfg root base target patch_file outs
  = create_binary_patch_sched root base target patch_file
      (concat (map (fun f => fst (task f)) changed)) (map (fun f => snd (task f)) changed) outs.
Proof.
  intros H task.
  rewrite (create_binary_patch_archive bd xc cfg root base target patch_file outs changed new H).
  rewrite (create_binary_patch_sched_spec root base target patch_file outs changed new _ _ H).
  reflexivity.
Qed.

(* ================================================================== *)
(** * Claims *)




(** C3: the command-line applier validates every patch archive before it
    applies any; when one of them does not validate, [main] returns with the
    file system and the zip files (no reverse-patch archive) unchanged. *)
Theorem main_invalid_patch_no_writes bd bp (backup : bool) (target p : string) (st : St) :
  In p (filter (ends_with "_patch.zip") (map fst (zips st))) ->
  Apply.validate_patch p target st = (st, Ok false) ->
  exists r, Apply.main bd bp backup (Some target) st = (st, r).
Proof.
  intros Hin Hv. unfold Apply.main, Apply.find_patches, bind, get, ret.
  destruct (filter (ends_with "_patch.zip") (map fst (zips st))) as [|p0 ps] eqn:F;
    [destruct Hin|].
  destruct (validate_all_reads_only (p0 :: ps) target st) as [H1 H2].
  destruct (Apply.validate_all (p0 :: ps) target st) as [st' [[|]|e]] eqn:V;
    simpl in H1; subst st'.
  - specialize (H2 eq_refl p Hin). congruence.
  - eexists; reflexivity.
  - eexists; reflexivity.
Qed.

Lemma main_invalid_patch_no_writes_witness :
  exists r, Apply.main copy_diff copy_patch true (Some "t") st_chunk = (st_chunk, r).
Proof.
  apply (main_invalid_patch_no_writes copy_diff copy_patch true "t" "chunk_patch.zip").
  - simpl. auto.
  - vm_compute. reflexivity.
Defined.



(** C7: a large-file strategy that click's case-insensitive [Choice] does
    not match with one of [copy], [split], [skip], [xdelta] (for any case
    folding) stops patch_create's [main] with a usage error before the body
    runs: no tree is compared and no zip file is written. *)
Theorem unknown_strategy_rejected_at_startup (casefold : string -> string) bd xc root base target
    patch_dir mode verbose (strategy : string) split_size large_file_size (outs : Out) :
  choice_convert casefold large_file_strategy_choices strategy = None ->
  exists msg,
    main casefold bd xc root base target patch_dir mode verbose strategy split_size large_file_size
      outs
    = (outs, Raise (UsageError msg)).
Proof.
  intros H. unfold main.
  destruct (choice_convert casefold mode_choices mode); [rewrite H|]; eexists; reflexivity.
Qed.

Lemma unknown_strategy_rejected_at_startup_witness :
  exists msg,
    main casefold_ascii copy_diff copy_xdelta root_small "v1" "v2" None "binary" false "external"
      16 32 []
    = ([], Raise (UsageError msg)).
Proof.
  apply unknown_strategy_rejected_at_startup. vm_compute. reflexivity.
Defined.

(** C1 (failing input): under the default [xdelta] strategy the builder
    stores the external-tool delta of [big.bin] as [big.bin.vcdiff].
    Applying that archive to the base tree, whatever the applier's bsdiff4
    codec, leaves [v1/big.bin] as it was (it should become the target
    content [02 02]) and writes the delta bytes to a new file
    [v1/big.bin.vcdiff]: the entry is extracted, not decoded. *)
Theorem external_delta_extracted_verbatim bd bp :
  ext_archive = [("big.bin.vcdiff", [Byte.x02; Byte.x02])] /\
  snd (Apply.main bd bp false (Some "v1") st_ext) = Ok tt /\
  files (fst (Apply.main bd bp false (Some "v1") st_ext)) "v1/big.bin"
    = Some (FileO [Byte.x01]) /\
  files (fst (Apply.main bd bp false (Some "v1") st_ext)) "v1/big.bin.vcdiff"
    = Some (FileO [Byte.x02; Byte.x02]).
Proof. vm_compute. repeat split. Qed.

(** C4 (failing input): the reverse delta is computed before the overwrite,
    but its entry is named by [os.path.relpath(original_file_path)], relative
    to the working directory and not to the target tree.  Patching the tree
    [game] with backup gives the reverse entry [game/a.txt.patch]; that
    reverse archive does not validate against [game], and applying it looks
    for [game/game/a.txt] and fails, so [game/a.txt] keeps its patched bytes
    [02] instead of being restored to [01]. *)
Theorem reverse_patch_not_tree_relative bd bp :
  (forall a b, bp a (bd a b) = Some b) ->
  let st1 := fst (Apply.main bd bp true (Some "game") (st_game bd)) in
  snd (Apply.main bd bp true (Some "game") (st_game bd)) = Ok tt /\
  files st1 "game/a.txt" = Some (FileO [Byte.x02]) /\
  read_zip "upd_patch_revertpatch.zip" st1
    = (st1, Ok [("game/a.txt.patch", bd [Byte.x02] [Byte.x01])]) /\
  Apply.validate_patch "upd_patch_revertpatch.zip" "game" st1 = (st1, Ok false) /\
  exists st2,
    Apply.apply_patch_with_backup bd bp "upd_patch_revertpatch.zip" "game" false st1
      = (st2, Raise (FileNotFoundError "game/game/a.txt")) /\
    files st2 "game/a.txt" = Some (FileO [Byte.x02]).
Proof.
  intros H st1.
  assert (E : Apply.main bd bp true (Some "game") (st_game bd) =
     (mkSt (fun q => if String.eqb q "game/a.txt" then Some (FileO [Byte.x02])
                     else files (st_game bd) q)
           (("upd_patch_revertpatch.zip", [("game/a.txt.patch", bd [Byte.x02] [Byte.x01])])
              :: zips (st_game bd)), Ok tt)).
  { cbv. rewrite H. reflexivity. }
  subst st1. rewrite E. cbv. repeat split. eexists; split; reflexivity.
Qed.

Lemma reverse_patch_not_tree_relative_witness :
  let st1 := fst (Apply.main copy_diff copy_patch true (Some "game") (st_game copy_diff)) in
  snd (Apply.main copy_diff copy_patch true (Some "game") (st_game copy_diff)) = Ok tt /\
  files st1 "game/a.txt" = Some (FileO [Byte.x02]) /\
  read_zip "upd_patch_revertpatch.zip" st1
    = (st1, Ok [("game/a.txt.patch", copy_diff [Byte.x02] [Byte.x01])]) /\
  Apply.validate_patch "upd_patch_revertpatch.zip" "game" st1 = (st1, Ok false) /\
  exists st2,
    Apply.apply_patch_with_backup copy_diff copy_patch "upd_patch_revertpatch.zip" "game" false st1
      = (st2, Raise (FileNotFoundError "game/game/a.txt")) /\
    files st2 "game/a.txt" = Some (FileO [Byte.x02]).
Proof.
  apply reverse_patch_not_tree_relative. intros a b. reflexivity.
Defined.

(** C5 (failing input): a directory [d] present only in the target is put
    in the [new] list as the path [v2/d], without recursion; the archive
    then holds a bare directory entry [d/] and no entry for [d/x.txt], and
    applying that archive stops on the directory entry. *)
Theorem new_subtree_listed_as_directory bd xc cfg bp :
  find_differences root_newdir "v1" "v2" = Ok ([], ["v2/d"]) /\
  lookup root_newdir "v2/d" = Some (Dir [("x.txt", File [Byte.x01] 0)]) /\
  create_binary_patch bd xc cfg root_newdir "v1" "v2" "v1_v2_patch.zip" []
    = ([("v1_v2_patch.zip", [("d/", [])])], Ok tt) /\
  snd (Apply.main bd bp false (Some "v1") st_newdir) = Raise (IsADirectoryError "v1/d/") /\
  files (fst (Apply.main bd bp false (Some "v1") st_newdir)) "v1/d/x.txt" = None.
Proof. repeat split; reflexivity. Qed.

(** C10 (failing input): the applier picks the delta branch by the suffix
    [.patch] alone, so the verbatim new file [a.patch.patch] is treated as a
    full delta; but its base is derived with [replace('.patch', '')], which
    removes every occurrence: the applier reads and overwrites [t/a], not
    [t/a.patch] (the name with the suffix stripped), and validation looks
    for [t/a] too. *)
Theorem patch_named_entry_base_derivation :
  Apply.validate_patch "dp_patch.zip" "t" st_dp = (st_dp, Ok true) /\
  os_path_exists st_dp "t/a.patch" = false /\
  snd (Apply.main copy_diff copy_patch false (Some "t") st_dp) = Ok tt /\
  files (fst (Apply.main copy_diff copy_patch false (Some "t") st_dp)) "t/a"
    = Some (FileO [Byte.x05]) /\
  files (fst (Apply.main copy_diff copy_patch false (Some "t") st_dp)) "t/a.patch" = None /\
  files (fst (Apply.main copy_diff copy_patch false (Some "t") st_dp)) "t/a.patch.patch" = None.
Proof. vm_compute. repeat split. Qed.







(* ================================================================== *)
(** * Further properties of the code *)

Lemma bytes_eqb_true (a b : bytes) : bytes_eqb a b = true <-> a = b.
Proof. unfold bytes_eqb. destruct (list_eq_dec Byte.byte_eq_dec a b); split; congruence. Qed.

(** [is_file_different]: two regular files count as different exactly when
    their [os.stat] signatures (size, mtime) differ and their contents
    differ; a content change that keeps the size and the mtime is missed. *)
Theorem is_file_different_iff b1 m1 b2 m2 :
  is_file_different (File b1 m1) (File b2 m2) = true <->
  (length b1 <> length b2 \/ m1 <> m2) /\ b1 <> b2.
Proof.
  unfold is_file_different, filecmp_cmp.
  pose proof (bytes_eqb_true b1 b2) as BE.
  destruct (Nat.eqb_spec (length b1) (length b2)) as [L|L];
  destruct (Z.eqb_spec m1 m2) as [Mz|Mz];
  destruct (bytes_eqb b1 b2); cbn [andb negb];
  intuition (subst; try discriminate; try congruence).
Qed.

Lemma firstn_nil_iff {A} (n : nat) (l : list A) : firstn n l = [] -> n = 0 \/ l = [].
Proof. destruct n, l; simpl; auto; discriminate. Qed.

Lemma chunks_go_spec size fuel l :
  0 < size -> length l <= fuel ->
  concat (chunks_go fuel size l) = l /\
  Forall (fun c => 0 < length c <= size) (chunks_go fuel size l) /\
  Forall (fun c => length c = size) (removelast (chunks_go fuel size l)).
Proof.
  intros Hs. revert l. induction fuel as [|f IH]; intros l Hl.
  - destruct l; [|simpl in Hl; lia]. repeat split; constructor.
  - cbn [chunks_go]. destruct (firstn size l) as [|c cs] eqn:F.
    + destruct (firstn_nil_iff _ _ F) as [H0| ->]; [lia|]. repeat split; constructor.
    + rewrite <- F.
      assert (Lk : length (skipn size l) <= f).
      { rewrite length_skipn. destruct l; [rewrite firstn_nil in F; discriminate|]. cbn [length] in Hl |- *. lia. }
      destruct (IH _ Lk) as (C & B & R).
      assert (Lc : length (firstn size l) = Nat.min size (length l)) by apply length_firstn.
      assert (Ne : 0 < length l) by (destruct l; [rewrite firstn_nil in F; discriminate | simpl; lia]).
      split; [simpl; rewrite C; apply firstn_skipn|].
      split; [constructor; [rewrite Lc; lia | exact B]|].
      destruct (chunks_go f size (skipn size l)) as [|d ds] eqn:Rest.
      * constructor.
      * cbn [removelast]. constructor; [|exact R].
        rewrite Lc. destruct (Nat.le_gt_cases size (length l)) as [Le|Gt]; [lia|].
        exfalso. rewrite skipn_all2 in Rest by lia.
        destruct f; cbn [chunks_go] in Rest; [discriminate | rewrite firstn_nil in Rest; discriminate].
Qed.

(** [split_file_into_chunks] with a positive split size reads the file in
    chunks that concatenate back to the file; every chunk is non-empty and at
    most [get_chunk_size()] bytes, and all but the last have exactly that
    size. *)
Theorem split_file_into_chunks_concat cfg root p b m (a : archive) :
  (0 < flag_split_size cfg)%Z ->
  lookup root p = Some (File b m) ->
  exists cs,
    split_file_into_chunks cfg root p a = (a, Ok cs) /\
    concat cs = b /\
    Forall (fun c => 0 < length c <= Z.to_nat (get_chunk_size cfg)) cs /\
    Forall (fun c => length c = Z.to_nat (get_chunk_size cfg)) (removelast cs).
Proof.
  intros Hs Hl. unfold split_file_into_chunks, bind, read_path, ret. rewrite Hl.
  eexists. split; [reflexivity|]. unfold chunks. apply chunks_go_spec; [|lia].
  unfold get_chunk_size. lia.
Qed.

Lemma split_file_into_chunks_concat_witness :
  (0 < flag_split_size cfg_split)%Z /\
  lookup root_big "v1/big.bin" = Some (File (zeros 2097153) 0) /\
  map (fun c => Z.of_nat (length c)) (chunks (Z.to_nat (get_chunk_size cfg_split)) (zeros 2097153))
    = [1048576; 1048576; 1]%Z /\
  exists cs,
    split_file_into_chunks cfg_split root_big "v1/big.bin" [] = ([], Ok cs) /\
    concat cs = zeros 2097153 /\
    Forall (fun c => 0 < length c <= Z.to_nat (get_chunk_size cfg_split)) cs /\
    Forall (fun c => length c = Z.to_nat (get_chunk_size cfg_split)) (removelast cs).
Proof.
  split; [reflexivity|]. split; [reflexivity|]. split; [vm_compute; reflexivity|].
  apply (split_file_into_chunks_concat cfg_split root_big "v1/big.bin" (zeros 2097153) 0 []);
    reflexivity.
Defined.

(** [create_patch_for_file] on a file above [--large-file-size] MiB, per
    strategy: [copy] stores the target file under its relative path, or
    raises [ValueError] (year of its mtime before 1980) or [struct.error]
    (after 2107) without writing; [skip] writes nothing; [xdelta] stores
    the xdelta3 output as [<rel>.vcdiff], raises [TypeError] (from
    [writestr(name, None)]) without writing when xdelta3 fails, and lets
    through what running xdelta3 raises (e.g. [FileNotFoundError] for a
    missing executable); [split] with a split size of 0 or less, and any
    other strategy name, raise [ValueError] without writing. *)
Theorem large_file_strategies bd xc cfg root d t r old m1 new m2 (a : archive) :
  lookup root d = Some (File old m1) ->
  lookup root t = Some (File new m2) ->
  (flag_large_file_size cfg * 1024 * 1024 < Z.of_nat (length old))%Z ->
  let s := flag_large_file_strategy cfg in
  let run := create_patch_for_file bd xc cfg root d t r a in
  (s = "copy" ->
     run = if (localtime_year m2 <? 1980)%Z
           then (a, Raise (ValueError "ZIP does not support timestamps before 1980"))
           else if (2107 <? localtime_year m2)%Z then (a, Raise StructError)
           else (app a [(norm r, new)], Ok tt)) /\
  (s = "skip" -> run = (a, Ok tt)) /\
  (s = "xdelta" ->
     run = match xc (Some old) (Some new) with
           | Ok (Some dl) => (app a [(r ++ ".vcdiff", dl)], Ok tt)
           | Ok None => (a, Raise TypeError)
           | Raise e => (a, Raise e)
           end) /\
  (s = "split" -> (flag_split_size cfg <= 0)%Z ->
     run = (a, Raise (ValueError "Unknown large file strategy: split"))) /\
  (~ In s ["copy"; "skip"; "split"; "xdelta"] ->
     run = (a, Raise (ValueError ("Unknown large file strategy: " ++ s)))).
Proof.
  intros Hd Ht Hz s run. subst run.
  unfold create_patch_for_file, bind, getsize. rewrite Hd.
  apply Z.ltb_lt in Hz. rewrite Hz.
  unfold handle_large_file, copy_large_file_to_zip, xdelta_patch_large_file, zipf_write,
    zipf_writestr, file_content, lift_outcome, read_path, bind, ret, raise. fold s.
  repeat split.
  - intros ->. cbn. now rewrite Ht.
  - intros ->. reflexivity.
  - intros ->. cbn. rewrite Hd, Ht. now destruct (xc (Some old) (Some new)) as [[?|]|?].
  - intros -> Hs. apply Z.ltb_ge in Hs. cbn. now rewrite Hs.
  - intros Hn. cbn [In] in Hn.
    destruct (String.eqb_spec s "copy") as [e|_]; [exfalso; apply Hn; rewrite e; simpl; tauto|].
    destruct (String.eqb_spec s "skip") as [e|_]; [exfalso; apply Hn; rewrite e; simpl; tauto|].
    destruct (String.eqb_spec s "split") as [e|_]; [exfalso; apply Hn; rewrite e; simpl; tauto|].
    destruct (String.eqb_spec s "xdelta") as [e|_]; [exfalso; apply Hn; rewrite e; simpl; tauto|].
    reflexivity.
Qed.

Lemma large_file_strategies_witness :
  let xc : option bytes -> option bytes -> outcome (option bytes) :=
    fun _ _ => Raise (FileNotFoundError "xdelta.exe") in
  lookup root_dated "v1/a.txt" = Some (File [Byte.x01] 1700000000) /\
  lookup root_dated "v2/a.txt" = Some (File [Byte.x02] 1700000001) /\
  (flag_large_file_size cfg_xdelta * 1024 * 1024 < Z.of_nat (length [Byte.x01]))%Z /\
  let s := flag_large_file_strategy cfg_xdelta in
  let run := create_patch_for_file copy_diff xc cfg_xdelta root_dated "v1/a.txt" "v2/a.txt"
               "a.txt" [] in
  (s = "copy" ->
     run = if (localtime_year 1700000001 <? 1980)%Z
           then ([], Raise (ValueError "ZIP does not support timestamps before 1980"))
           else if (2107 <? localtime_year 1700000001)%Z then ([], Raise StructError)
           else (app [] [(norm "a.txt", [Byte.x02])], Ok tt)) /\
  (s = "skip" -> run = ([], Ok tt)) /\
  (s = "xdelta" ->
     run = match xc (Some [Byte.x01]) (Some [Byte.x02]) with
           | Ok (Some dl) => (app [] [("a.txt" ++ ".vcdiff", dl)], Ok tt)
           | Ok None => ([], Raise TypeError)
           | Raise e => ([], Raise e)
           end) /\
  (s = "split" -> (flag_split_size cfg_xdelta <= 0)%Z ->
     run = ([], Raise (ValueError "Unknown large file strategy: split"))) /\
  (~ In s ["copy"; "skip"; "split"; "xdelta"] ->
     run = ([], Raise (ValueError ("Unknown large file strategy: " ++ s)))).
Proof.
  intros xc. split; [reflexivity|]. split; [reflexivity|]. split; [reflexivity|].
  apply (large_file_strategies copy_diff xc cfg_xdelta root_dated "v1/a.txt" "v2/a.txt"
           "a.txt" [Byte.x01] 1700000000 [Byte.x02] 1700000001 []); reflexivity.
Defined.





(** Replacing a one-character string distributes over concatenation. *)
Lemma py_replace_char_app (o : ascii) (nw x y : string) :
  py_replace (String o "") nw (x ++ y) = py_replace (String o "") nw x ++ py_replace (String o "") nw y.
Proof.
  assert (PE : forall z, String.prefix "" z = true) by (intros [|? ?]; reflexivity).
  unfold py_replace. induction x as [|c x IH]; [reflexivity|].
  cbn [append repl String.prefix]. destruct (ascii_dec o c); cbn [String.length Nat.sub];
    rewrite ?PE.
  - rewrite IH. now rewrite string_app_assoc.
  - rewrite IH. reflexivity.
Qed.

(** Without [--patch_dir], [patch_create]'s [main] writes its archive as
    [<basename(base)>_<basename(target)>_patch.zip] with spaces turned into
    underscores, in both modes; the name ends in [_patch.zip], the suffix
    [patch_apply]'s [find_patches] looks for. *)
Theorem default_patch_name casefold bd xc root base target mode verbose lfs split_size lfsize
    (outs : Out) m s d :
  choice_convert casefold mode_choices mode = Some m ->
  choice_convert casefold large_file_strategy_choices lfs = Some s ->
  find_differences root base target = Ok d ->
  let name := py_replace " " "_" (basename base ++ "_" ++ basename target ++ "_patch") ++ ".zip" in
  ends_with "_patch.zip" name = true /\
  exists a, fst (main casefold bd xc root base target None mode verbose lfs split_size lfsize outs)
            = (name, a) :: outs.
Proof.
  intros Hm Hs Hd name. split.
  - apply ends_with_app. exists (py_replace " " "_" (basename base ++ "_" ++ basename target)).
    subst name.
    rewrite <- (string_app_assoc "_" (basename target) "_patch").
    rewrite <- (string_app_assoc (basename base) ("_" ++ basename target) "_patch").
    rewrite py_replace_char_app. rewrite string_app_assoc. reflexivity.
  - unfold main. rewrite Hm, Hs.
    destruct (String.eqb m "binary");
      unfold create_binary_patch, create_file_patch, bind, lift_outcome, with_zipfile, ret;
      rewrite Hd; destruct d as [changed new].
    + destruct (create_binary_patch_body _ _ _ _ _ _ _ _ []) as [a r]. now exists a.
    + destruct (create_file_patch_body _ _ _ _ _ []) as [a r]. now exists a.
Qed.

Lemma default_patch_name_witness :
  choice_convert casefold_ascii mode_choices "binary" = Some "binary" /\
  choice_convert casefold_ascii large_file_strategy_choices "xdelta" = Some "xdelta" /\
  find_differences root_small "v1" "v2" = Ok (["v1/a.txt"], []) /\
  let name := py_replace " " "_" (basename "v1" ++ "_" ++ basename "v2" ++ "_patch") ++ ".zip" in
  ends_with "_patch.zip" name = true /\
  exists a, fst (main casefold_ascii copy_diff copy_xdelta root_small "v1" "v2" None "binary" false
                   "xdelta" 16 32 [])
            = (name, a) :: [].
Proof.
  split; [reflexivity|]. split; [reflexivity|]. split; [vm_compute; reflexivity|].
  apply (default_patch_name casefold_ascii copy_diff copy_xdelta root_small "v1" "v2" "binary" false "xdelta" 16 32 []
           "binary" "xdelta" (["v1/a.txt"], [])); [reflexivity | reflexivity | vm_compute; reflexivity].
Defined.

(* ------------------------------------------------------------------ *)
(** Paths of well-formed trees *)

Lemma split_slash_nonempty (s : string) : split_slash s <> [].
Proof.
  destruct s as [|c r]; cbn [split_slash]; [discriminate|].
  destruct (Ascii.eqb c "/"); [discriminate|]. destruct (split_slash r); discriminate.
Qed.

Lemma split_slash_join (a b : string) :
  split_slash (a ++ String "/" b) = app (split_slash a) (split_slash b).
Proof.
  induction a as [|c a IH]; [reflexivity|].
  cbn [append split_slash]. rewrite IH.
  destruct (Ascii.eqb c "/"); [reflexivity|].
  destruct (split_slash a) as [|x xs] eqn:E; [now destruct (split_slash_nonempty a)|].
  reflexivity.
Qed.

Lemma path_segs_join (p r : string) : path_segs (join p r) = app (path_segs p) (path_segs r).
Proof.
  unfold join. destruct (String.eqb_spec p "") as [->|_]; [reflexivity|].
  unfold path_segs. cbn [append]. rewrite split_slash_join. apply filter_app.
Qed.

Lemma split_slash_no_slash (s : string) : contains "/" s = false -> split_slash s = [s].
Proof.
  induction s as [|c r IH]; intros H; [reflexivity|].
  cbn [contains] in H. apply orb_false_iff in H as [Hp Hr].
  cbn [split_slash]. rewrite IH by exact Hr.
  destruct (Ascii.eqb_spec c "/") as [->|_]; [cbn in Hp; destruct r; discriminate|reflexivity].
Qed.

Lemma good_name_spec (n : string) :
  good_name n = true ->
  n <> "" /\ n <> "." /\ n <> ".." /\ contains "/" n = false.
Proof.
  unfold good_name. intros H.
  apply andb_true_iff in H as [H H4]. apply andb_true_iff in H as [H H3].
  apply andb_true_iff in H as [H1 H2].
  apply negb_true_iff in H1, H2, H3, H4.
  apply String.eqb_neq in H1, H2, H3. auto.
Qed.

Lemma path_segs_good (n : string) : good_name n = true -> path_segs n = [n].
Proof.
  intros H. destruct (good_name_spec n H) as (H1 & H2 & _ & H4).
  unfold path_segs. rewrite split_slash_no_slash by exact H4. cbn [filter].
  apply String.eqb_neq in H1, H2. now rewrite H1, H2.
Qed.

Lemma lookup_segs_app (n : node) (s1 s2 : list string) :
  lookup_segs n (app s1 s2) =
  match lookup_segs n s1 with Some c => lookup_segs c s2 | None => None end.
Proof.
  revert n. induction s1 as [|x s1 IH]; intros n; [reflexivity|].
  cbn [app lookup_segs]. destruct n as [b m|es]; [reflexivity|].
  destruct (assoc x es); [apply IH | reflexivity].
Qed.

Lemma lookup_join_good (root : node) (p n : string) :
  good_name n = true ->
  lookup root (join p n) =
  match lookup root p with Some (Dir es) => assoc n es | _ => None end.
Proof.
  intros H. unfold lookup. rewrite path_segs_join, (path_segs_good n H).
  rewrite lookup_segs_app. destruct (lookup_segs root (path_segs p)) as [[b m|es]|]; try reflexivity.
  cbn [lookup_segs]. now destruct (assoc n es).
Qed.

Lemma join_assoc (a x y : string) : x <> "" -> join (join a x) y = join a (join x y).
Proof.
  intros Hx. apply String.eqb_neq in Hx. unfold join.
  destruct (String.eqb_spec a "") as [_|Ha]; rewrite ?Hx; [reflexivity|].
  destruct a as [|c a]; [contradiction|]. cbn [append String.eqb].
  rewrite !string_app_assoc. reflexivity.
Qed.

Lemma assoc_in (k : string) (c : node) (es : list (string * node)) :
  assoc k es = Some c -> In (k, c) es.
Proof.
  induction es as [|[k' c'] es IH]; cbn [assoc]; [discriminate|].
  destruct (String.eqb_spec k' k) as [->|_]; intros H; [injection H as ->; now left | right; auto].
Qed.

Lemma assoc_nodup (k : string) (c : node) (es : list (string * node)) :
  names_nodup (map fst es) = true -> In (k, c) es -> assoc k es = Some c.
Proof.
  induction es as [|[k' c'] es IH]; intros Hn Hin; [destruct Hin|].
  cbn [map fst names_nodup] in Hn. apply andb_true_iff in Hn as [Hx Hn].
  cbn [assoc]. destruct Hin as [E|Hin].
  - injection E as -> ->. now rewrite String.eqb_refl.
  - destruct (String.eqb_spec k' k) as [->|_]; [|now apply IH].
    exfalso. apply negb_true_iff in Hx.
    assert (existsb (String.eqb k) (map fst es) = true) as Hc; [|congruence].
    apply existsb_exists. exists k. split; [|apply String.eqb_refl].
    apply in_map_iff. now exists (k, c).
Qed.

Lemma wf_dir (es : list (string * node)) :
  wf_node (Dir es) = true ->
  names_nodup (map fst es) = true /\
  (forall k c, In (k, c) es -> good_name k = true /\ wf_node c = true).
Proof.
  cbn [wf_node]. intros H. apply andb_true_iff in H as [H Hgo].
  apply andb_true_iff in H as [Hn Hg]. split; [exact Hn|].
  intros k c Hin. split.
  - rewrite forallb_forall in Hg. exact (Hg _ Hin).
  - induction es as [|[k' c'] es IH]; [destruct Hin|].
    apply andb_true_iff in Hgo as [Hc Hgo].
    destruct Hin as [E|Hin]; [injection E as -> ->; exact Hc|].
    cbn [forallb] in Hg. apply andb_true_iff in Hg as [_ Hg].
    cbn [map names_nodup] in Hn. apply andb_true_iff in Hn as [_ Hn].
    exact (IH Hn Hg Hgo Hin).
Qed.

Lemma wf_lookup_segs (n c : node) (segs : list string) :
  wf_node n = true -> lookup_segs n segs = Some c -> wf_node c = true.
Proof.
  revert n. induction segs as [|s segs IH]; intros n Hw H; cbn [lookup_segs] in H.
  - now injection H as <-.
  - destruct n as [b m|es]; [discriminate|].
    destruct (assoc s es) as [c'|] eqn:A; [|discriminate].
    apply (IH c'); [|exact H].
    exact (proj2 (proj2 (wf_dir es Hw) s c' (assoc_in _ _ _ A))).
Qed.

Lemma wf_lookup (root c : node) (p : string) :
  wf_node root = true -> lookup root p = Some c -> wf_node c = true.
Proof. apply wf_lookup_segs. Qed.

Lemma changed_ok_step (root : node) (base target name f : string) :
  name <> "" -> changed_ok root (join base name) (join target name) f ->
  changed_ok root base target f.
Proof.
  intros Hn (r & b1 & m1 & b2 & m2 & -> & H1 & H2 & H3).
  exists (join name r), b1, m1, b2, m2. rewrite <- !join_assoc by exact Hn. auto.
Qed.

Lemma new_ok_step (root : node) (base target name f : string) :
  name <> "" -> new_ok root (join base name) (join target name) f ->
  new_ok root base target f.
Proof.
  intros Hn (r & n & -> & H1 & H2).
  exists (join name r), n. rewrite <- !join_assoc by exact Hn. auto.
Qed.

Lemma find_differences_in_sound (root bdir : node) :
  forall base target tents,
  wf_node root = true -> lookup root base = Some bdir ->
  lookup root target = Some (Dir tents) ->
  (forall f, In f (fst (find_differences_in base target bdir tents)) -> changed_ok root base target f) /\
  (forall f, In f (snd (find_differences_in base target bdir tents)) -> new_ok root base target f).
Proof.
  induction bdir as [b m|bents IH] using node_ind';
    intros base target tents Hw Hb Ht; [split; intros f []|].
  pose proof (wf_dir bents (wf_lookup root _ base Hw Hb)) as [Bn Bw].
  pose proof (wf_dir tents (wf_lookup root _ target Hw Ht)) as [Tn Tw].
  cbn [find_differences_in fst snd]. split; intros f Hf; apply in_app_iff in Hf as [Hf|Hf].
  - apply in_flat_map in Hf as ([name bn] & Hin & Hf). cbn [fst snd] in Hf.
    destruct (assoc name tents) as [t|] eqn:A; [|destruct Hf].
    destruct bn as [b1 m1|]; [|destruct Hf]. destruct t as [b2 m2|]; [|destruct Hf].
    cbn [is_file andb] in Hf.
    destruct (is_file_different (File b1 m1) (File b2 m2)) eqn:D; [|destruct Hf].
    destruct Hf as [<-|[]].
    pose proof (proj1 (Bw _ _ Hin)) as G.
    exists name, b1, m1, b2, m2. split; [reflexivity|].
    rewrite !lookup_join_good by exact G. rewrite Hb, Ht, A.
    rewrite (assoc_nodup _ _ _ Bn Hin). auto.
  - assert (Hsub : forall l, incl l bents -> Forall (fun e => forall base target tents,
        wf_node root = true -> lookup root base = Some (snd e) ->
        lookup root target = Some (Dir tents) ->
        (forall f, In f (fst (find_differences_in base target (snd e) tents)) -> changed_ok root base target f) /\
        (forall f, In f (snd (find_differences_in base target (snd e) tents)) -> new_ok root base target f)) l ->
        forall f, In f (fst ((fix go (es : list (string * node)) : list string * list string :=
           match es with
           | [] => ([], [])
           | (name, bn) :: r =>
               let rest := go r in
               match bn, assoc name tents with
               | Dir _, Some (Dir tsub) =>
                   let sd := find_differences_in (join base name) (join target name) bn tsub in
                   (app (fst sd) (fst rest), app (snd sd) (snd rest))
               | _, _ => rest
               end
           end) l)) -> changed_ok root base target f).
    { clear f Hf. induction l as [|[name bn] l IHl]; intros Hi Hl f Hf; [destruct Hf|].
      inversion Hl as [|? ? Hx Hr]; subst.
      assert (Hin : In (name, bn) bents) by (apply Hi; now left).
      pose proof (proj1 (Bw _ _ Hin)) as G. pose proof (good_name_spec _ G) as [Gn _].
      assert (Hi' : incl l bents) by (intros e He; apply Hi; now right).
      destruct bn as [b1 m1|bsub]; [exact (IHl Hi' Hr f Hf)|].
      destruct (assoc name tents) as [[b2 m2|tsub]|] eqn:A; try exact (IHl Hi' Hr f Hf).
      cbn [fst snd] in Hf. apply in_app_iff in Hf as [Hf|Hf]; [|exact (IHl Hi' Hr f Hf)].
      apply (changed_ok_step root base target name f Gn).
      refine (proj1 (Hx (join base name) (join target name) tsub Hw _ _) f Hf).
      + rewrite lookup_join_good by exact G. rewrite Hb. exact (assoc_nodup _ _ _ Bn Hin).
      + rewrite lookup_join_good by exact G. rewrite Ht. exact A. }
    exact (Hsub bents (incl_refl _) IH f Hf).
  - apply in_map_iff in Hf as ([name tn] & <- & Hin). apply filter_In in Hin as [Hin Hm].
    cbn [fst] in Hm |- *. apply negb_true_iff in Hm.
    pose proof (proj1 (Tw _ _ Hin)) as G.
    exists name, tn. split; [reflexivity|].
    rewrite !lookup_join_good by exact G. rewrite Hb, Ht.
    rewrite (assoc_nodup _ _ _ Tn Hin). split; [reflexivity|].
    unfold mem in Hm. destruct (assoc name bents); [discriminate|reflexivity].
  - assert (Hsub : forall l, incl l bents -> Forall (fun e => forall base target tents,
        wf_node root = true -> lookup root base = Some (snd e) ->
        lookup root target = Some (Dir tents) ->
        (forall f, In f (fst (find_differences_in base target (snd e) tents)) -> changed_ok root base target f) /\
        (forall f, In f (snd (find_differences_in base target (snd e) tents)) -> new_ok root base target f)) l ->
        forall f, In f (snd ((fix go (es : list (string * node)) : list string * list string :=
           match es with
           | [] => ([], [])
           | (name, bn) :: r =>
               let rest := go r in
               match bn, assoc name tents with
               | Dir _, Some (Dir tsub) =>
                   let sd := find_differences_in (join base name) (join target name) bn tsub in
                   (app (fst sd) (fst rest), app (snd sd) (snd rest))
               | _, _ => rest
               end
           end) l)) -> new_ok root base target f).
    { clear f Hf. induction l as [|[name bn] l IHl]; intros Hi Hl f Hf; [destruct Hf|].
      inversion Hl as [|? ? Hx Hr]; subst.
      assert (Hin : In (name, bn) bents) by (apply Hi; now left).
      pose proof (proj1 (Bw _ _ Hin)) as G. pose proof (good_name_spec _ G) as [Gn _].
      assert (Hi' : incl l bents) by (intros e He; apply Hi; now right).
      destruct bn as [b1 m1|bsub]; [exact (IHl Hi' Hr f Hf)|].
      destruct (assoc name tents) as [[b2 m2|tsub]|] eqn:A; try exact (IHl Hi' Hr f Hf).
      cbn [fst snd] in Hf. apply in_app_iff in Hf as [Hf|Hf]; [|exact (IHl Hi' Hr f Hf)].
      apply (new_ok_step root base target name f Gn).
      refine (proj2 (Hx (join base name) (join target name) tsub Hw _ _) f Hf).
      + rewrite lookup_join_good by exact G. rewrite Hb. exact (assoc_nodup _ _ _ Bn Hin).
      + rewrite lookup_join_good by exact G. rewrite Ht. exact A. }
    exact (Hsub bents (incl_refl _) IH f Hf).
Qed.

Lemma find_differences_sound_aux (root : node) (base target : string) (changed new : list string) :
  wf_node root = true -> find_differences root base target = Ok (changed, new) ->
  (forall f, In f changed -> changed_ok root base target f) /\
  (forall f, In f new -> new_ok root base target f).
Proof.
  intros Hw Hd. unfold find_differences in Hd.
  destruct (lookup root base) as [[b m|bents]|] eqn:B; [discriminate| |discriminate];
  destruct (lookup root target) as [[b m|tents]|] eqn:T; try discriminate.
  assert (E : find_differences_in base target (Dir bents) tents = (changed, new)) by congruence.
  pose proof (find_differences_in_sound root (Dir bents) base target tents Hw B T) as S.
  rewrite E in S. exact S.
Qed.




(** The differences found in a well-formed tree are sound: every changed
    path is a regular file of the base tree whose counterpart at the same
    relative path of the target tree is a regular file that
    [is_file_different] tells apart from it; every new path exists in the
    target tree and its relative path is missing from the base tree. *)
Theorem find_differences_sound (root : node) (base target : string) (changed new : list string) :
  wf_node root = true -> find_differences root base target = Ok (changed, new) ->
  (forall f, In f changed -> changed_ok root base target f) /\
  (forall f, In f new -> new_ok root base target f).
Proof. apply find_differences_sound_aux. Qed.

Lemma find_differences_sound_witness :
  wf_node root_small = true /\ find_differences root_small "v1" "v2" = Ok (["v1/a.txt"], []) /\
  ((forall f, In f ["v1/a.txt"] -> changed_ok root_small "v1" "v2" f) /\
   (forall f, In f [] -> new_ok root_small "v1" "v2" f)).
Proof.
  split; [vm_compute; reflexivity|]. split; [vm_compute; reflexivity|].
  apply (find_differences_sound root_small "v1" "v2"); vm_compute; reflexivity.
Defined.



(* ------------------------------------------------------------------ *)
(** [bytes_to_human_readable] *)

Section HumanReadable.
Local Open Scope Q_scope.

Lemma inject_Z_1024_pow (k : nat) :
  inject_Z (1024 ^ Z.of_nat (S k)) == inject_Z (1024 ^ Z.of_nat k) * 1024.
Proof.
  rewrite Nat2Z.inj_succ, Z.pow_succ_r by lia. rewrite inject_Z_mult.
  rewrite Qmult_comm. reflexivity.
Qed.

Lemma inject_Z_1024_pow_ge1 (k : nat) : 1 <= inject_Z (1024 ^ Z.of_nat k).
Proof.
  unfold Qle. cbv [inject_Z Qnum Qden]. rewrite !Z.mul_1_r.
  apply (Zlt_le_succ 0). apply Z.pow_pos_nonneg; lia.
Qed.

Lemma inject_Z_1024_pow_pos (k : nat) : 0 < inject_Z (1024 ^ Z.of_nat k).
Proof. apply Qlt_le_trans with 1; [reflexivity|apply inject_Z_1024_pow_ge1]. Qed.

Lemma human_readable_go_none (units : list string) (num : Q) :
  units <> [] ->
  human_readable_go units num = None <-> inject_Z (1024 ^ Z.of_nat (length units)) <= num.
Proof.
  revert num. induction units as [|u r IH]; intros num Hne; [contradiction|].
  cbn [human_readable_go length].
  pose proof (inject_Z_1024_pow (length r)) as P.
  pose proof (inject_Z_1024_pow_pos (length r)) as P0.
  destruct (Qlt_le_dec num 1024) as [L|Hn].
  - split; [discriminate|]. intros H. exfalso.
    assert (inject_Z (1024 ^ Z.of_nat (length r)) * 1024 <= num) by (rewrite <- P; exact H).
    pose proof (inject_Z_1024_pow_ge1 (length r)).
    lra.
  - destruct r as [|u' r'].
    + cbn [human_readable_go length]. split; [intros _|reflexivity].
      change (inject_Z (1024 ^ Z.of_nat 1)) with (inject_Z 1024). exact Hn.
    + rewrite (IH (num / 1024)) by discriminate. rewrite P.
      set (c := inject_Z (1024 ^ Z.of_nat (length (u' :: r')))) in *.
      split; intros H.
      * assert (E : num == num / 1024 * 1024) by field. rewrite E.
        apply Qmult_le_r; [reflexivity|exact H].
      * apply Qle_shift_div_l; [reflexivity|exact H].
Qed.

Lemma human_readable_go_some (units : list string) (num v : Q) (unit : string) :
  human_readable_go units num = Some (v, unit) ->
  exists k, nth_error units k = Some unit /\
    v == num / inject_Z (1024 ^ Z.of_nat k) /\
    (k = O \/ inject_Z (1024 ^ Z.of_nat k) <= num) /\
    num < inject_Z (1024 ^ Z.of_nat (S k)).
Proof.
  revert num. induction units as [|u r IH]; intros num H; cbn [human_readable_go] in H; [discriminate|].
  destruct (Qlt_le_dec num 1024) as [L|Hn].
  - injection H as <- <-. exists O.
    split; [reflexivity|]. split; [cbn; field|]. split; [now left|exact L].
  - destruct (IH _ H) as (k & Hk & Hv & Hlo & Hhi). exists (S k).
    pose proof (inject_Z_1024_pow k) as P. pose proof (inject_Z_1024_pow (S k)) as P1.
    pose proof (inject_Z_1024_pow_pos k) as P0.
    split; [exact Hk|]. split; [|split].
    + rewrite Hv, P. field. intros E. rewrite E in P0. discriminate.
    + right. rewrite P. destruct Hlo as [->|Hlo].
      * change (inject_Z (1024 ^ Z.of_nat 0)) with 1. lra.
      * assert (E : num == num / 1024 * 1024) by field. rewrite E.
        apply Qmult_le_r; [reflexivity|exact Hlo].
    + rewrite P1. assert (E : num == num / 1024 * 1024) by field. rewrite E.
      apply Qmult_lt_r; [reflexivity|exact Hhi].
Qed.

(** For a size below [2^1024 - 2^970] (where Python raises
    [OverflowError]), [bytes_to_human_readable] returns [None] (shown as
    the text [None] by the f-strings that print it) exactly for sizes of
    [1024^5 = 2^50] bytes and more: the loop runs out of units after
    [TB]. *)
Theorem bytes_to_human_readable_none_iff (n : Z) :
  (n < 2 ^ 1024 - 2 ^ 970)%Z ->
  bytes_to_human_readable n = None <-> (2 ^ 50 <= n)%Z.
Proof.
  intros _. unfold bytes_to_human_readable. rewrite human_readable_go_none by discriminate.
  change (inject_Z (1024 ^ Z.of_nat (length human_units))) with (inject_Z (2 ^ 50)).
  rewrite Zle_Qle. reflexivity.
Qed.

(** Below that bound it picks the [k]-th unit of [bytes, KB, MB, GB, TB]
    for the [k] with [1024^k <= n < 1024^(k+1)] (the first unit for every
    [n < 1024], negative sizes included), and the value it formats is
    [n / 1024^k]. *)
Theorem bytes_to_human_readable_unit (n : Z) (v : Q) (unit : string) :
  bytes_to_human_readable n = Some (v, unit) ->
  exists k, nth_error human_units k = Some unit /\
    v == inject_Z n / inject_Z (1024 ^ Z.of_nat k) /\
    (k = O \/ 1024 ^ Z.of_nat k <= n)%Z /\
    (n < 1024 ^ Z.of_nat (S k))%Z.
Proof.
  unfold bytes_to_human_readable. intros H.
  destruct (human_readable_go_some _ _ _ _ H) as (k & Hk & Hv & Hlo & Hhi).
  exists k. split; [exact Hk|]. split; [exact Hv|]. split.
  - destruct Hlo as [->|Hlo]; [now left|right]. rewrite Zle_Qle. exact Hlo.
  - rewrite Zlt_Qlt. exact Hhi.
Qed.

Lemma bytes_to_human_readable_none_iff_witness :
  (2 ^ 50 < 2 ^ 1024 - 2 ^ 970)%Z /\ bytes_to_human_readable (2 ^ 50) = None /\
  (bytes_to_human_readable (2 ^ 50) = None <-> (2 ^ 50 <= 2 ^ 50)%Z).
Proof.
  split; [vm_compute; reflexivity|]. split; [vm_compute; reflexivity|].
  apply bytes_to_human_readable_none_iff. vm_compute. reflexivity.
Defined.

Lemma bytes_to_human_readable_unit_witness :
  bytes_to_human_readable 3072 = Some (3072 # 1024, "KB") /\
  exists k, nth_error human_units k = Some "KB" /\
    3072 # 1024 == inject_Z 3072 / inject_Z (1024 ^ Z.of_nat k) /\
    (k = O \/ 1024 ^ Z.of_nat k <= 3072)%Z /\
    (3072 < 1024 ^ Z.of_nat (S k))%Z.
Proof.
  split; [vm_compute; reflexivity|].
  apply bytes_to_human_readable_unit. vm_compute. reflexivity.
Defined.

End HumanReadable.
